(** * A force-directed bubble chart: the chart closure and its data load

    The development follows the single source module (the closure
    [bubbleChart] and the asynchronous loader below it).

    Numbers.  JavaScript numbers are modelled as exact rationals [Q]: the
    properties below are arithmetic identities and bounds, and rounding of
    binary64 results is not represented.  The charge, the one place where
    a property equates two computed numbers, is given on binary64 values
    as well ([charge_binary64]).

    The d3 libraries (force simulation, ordinal scale, selections) are not
    among the sources.  Their operations are modelled from section 4.1 and
    section 6 of the specification; each such definition says so. *)

From Stdlib Require Import QArith Qpower Qminmax Lia Lqa SpecFloat.
From stdpp Require Import gmap strings list fin_maps.

Local Open Scope Q_scope.

(** ** JavaScript values and raw records *)

(** The primitive values a field of a decoded record may hold, and
    [undefined] for a property that is read but absent. *)
Inductive JsVal : Type :=
| JUndefined
| JNull
| JBool (b : bool)
| JNumber (q : Q)
| JString (s : string).

(** A decoded record is an object: a finite map from property names to
    values. *)
Abbreviation JsObject := (gmap string JsVal).

(** Property read [d.k]: an absent property reads as [undefined]. *)
Definition get (d : JsObject) (k : string) : JsVal :=
  default JUndefined (d !! k).

(** Same value, as the keys of a JavaScript [Map] are compared (numbers by
    their numeric value). *)
Definition JsVal_eqb (a b : JsVal) : bool :=
  match a, b with
  | JUndefined, JUndefined => true
  | JNull, JNull => true
  | JBool b, JBool c => bool_decide (b = c)
  | JNumber p, JNumber q => Qeq_bool p q
  | JString s, JString t => bool_decide (s = t)
  | _, _ => false
  end.

(** ** Nodes *)

(** A node object.  [createNodes] sets the first seven properties; the
    velocity is added by the engine when the nodes are handed to it, so it
    is absent ([None]) before. *)
Record Node : Type := mkNode {
  n_id : JsVal;
  n_radius : Q;
  n_name : JsVal;
  n_theme : JsVal;
  n_tag : JsVal;
  n_x : Q;
  n_y : Q;
  n_vx : option Q;
  n_vy : option Q
}.

(** ** Constants of the closure *)

Definition width : Q := 940.
Definition height : Q := 600.

Record Point : Type := { p_x : Q; p_y : Q }.

Definition center : Point := {| p_x := width / 3; p_y := height / 2 |}.

Definition radius : Q := 22.

Definition forceStrength : Q := 0.5.

(** ** The charge function *)

(** [charge] reads the closure variable [forceStrength]; [charge_closure]
    is the same body with that variable as an argument. *)
Definition charge_closure (forceStrength : Q) (d : Node) : Q :=
  - (n_radius d ^ 2) * forceStrength.

Definition charge (d : Node) : Q := charge_closure forceStrength d.

(** The same product on binary64 values (precision 53, exponents up to
    1024, rounding to nearest even).  [square] is the value that
    [Math.pow(d.radius, 2.0)] returned: the language leaves the precision
    of [Math.pow] to the implementation, so it is an argument here. *)
Definition b64_mul : spec_float -> spec_float -> spec_float := SFmul 53 1024.

Definition charge_binary64 (forceStrength square : spec_float) : spec_float :=
  b64_mul (SFopp square) forceStrength.

(** The binary64 value of [m * 2 ^ e]. *)
Definition b64 (m e : Z) : spec_float := binary_normalize 53 1024 m e false.

(** Powers with a natural exponent. *)
Fixpoint pow_nat (r : Q) (n : nat) : Q :=
  match n with
  | O => 1
  | S m => r * pow_nat r m
  end.

(** ** The colour scale *)

(** Modelled from the spec: the ordinal scale of d3 ([d3.scaleOrdinal]) is
    not among the sources.  Section 6 fixes it on the domain: a fixed,
    ordered domain-to-range lookup.  For a key outside the domain the
    implementation-defined default taken here is d3's implicit domain: the
    key is appended to the domain and gets the range entry at its index
    modulo the length of the range.  The scale is therefore a state. *)
Record Ordinal : Type := {
  o_domain : list JsVal;
  o_range : list string
}.

(** Modelled from the spec: a fresh scale, with nothing to look up. *)
Definition scaleOrdinal : Ordinal := {| o_domain := []; o_range := [] |}.

(** Position of a key in a domain. *)
Fixpoint index_of (d : JsVal) (dom : list JsVal) : option nat :=
  match dom with
  | [] => None
  | k :: rest => if JsVal_eqb k d then Some O else S <$> index_of d rest
  end.

(** Modelled from the spec: [scale.domain(values)] fixes the ordered
    domain: the values in order, duplicates dropped. *)
Definition Ordinal_domain (values : list JsVal) (s : Ordinal) : Ordinal :=
  {| o_domain :=
       foldl (fun dom v => if index_of v dom is Some _ then dom else dom ++ [v]) [] values;
     o_range := o_range s |}.

(** Modelled from the spec: [scale.range(values)] fixes the ordered
    range. *)
Definition Ordinal_range (values : list string) (s : Ordinal) : Ordinal :=
  {| o_domain := o_domain s; o_range := values |}.

(** Modelled from the spec: the lookup [scale(d)], giving the colour and
    the scale afterwards; [None] is [undefined] (an empty range). *)
Definition Ordinal_call (s : Ordinal) (d : JsVal) : option string * Ordinal :=
  match index_of d (o_domain s) with
  | Some i => (o_range s !! (i mod length (o_range s))%nat, s)
  | None =>
      (o_range s !! (length (o_domain s) mod length (o_range s))%nat,
       {| o_domain := o_domain s ++ [d]; o_range := o_range s |})
  end.

(** The scale after looking up each key of a list in turn. *)
Definition Ordinal_calls (s : Ordinal) (keys : list JsVal) : Ordinal :=
  foldl (fun s d => snd (Ordinal_call s d)) s keys.

(** Looking up each key of a list in turn: the colours, and the scale
    afterwards. *)
Fixpoint Ordinal_map (s : Ordinal) (keys : list JsVal)
  : list (option string) * Ordinal :=
  match keys with
  | [] => ([], s)
  | d :: rest =>
      let (c, s1) := Ordinal_call s d in
      let (cs, s2) := Ordinal_map s1 rest in
      (c :: cs, s2)
  end.

Definition fillColor : Ordinal :=
  Ordinal_range ["#ffca3a"; "#3ddc97"; "#8ac926"; "#ff4f78"]
    (Ordinal_domain
       [JString "groei"; JString "onderneming"; JString "voeding";
        JString "financieel"]
       scaleOrdinal).

(** ** The force simulation engine *)

(** The three force contributors the closure builds, with the parameters
    it gives them. *)
Inductive Force : Type :=
| forceX (strength : Q) (x : Q)
| forceY (strength : Q) (y : Q)
| forceManyBody (strength : Node -> Q).

(** Modelled from the spec: the engine of section 4.1 ([d3.forceSimulation]
    is not among the sources).  It owns the energy scalar alpha, the
    damping coefficient, the named force contributors, the node set,
    whether a step-completion observer is registered, and whether
    automatic stepping is scheduled. *)
Record Simulation : Type := mkSimulation {
  sim_alpha : Q;
  sim_velocityDecay : Q;
  sim_forces : gmap string Force;
  sim_nodes : list Node;
  sim_on_tick : bool;
  sim_running : bool
}.

(** Modelled from the spec: a fresh engine; the source notes (before its
    call of [stop]) that it starts up automatically. *)
Definition forceSimulation : Simulation :=
  {| sim_alpha := 1;
     sim_velocityDecay := 0.4;
     sim_forces := ∅;
     sim_nodes := [];
     sim_on_tick := false;
     sim_running := true |}.

(** Modelled from the spec: sets the damping coefficient. *)
Definition Simulation_velocityDecay (v : Q) (s : Simulation) : Simulation :=
  {| sim_alpha := sim_alpha s;
     sim_velocityDecay := v;
     sim_forces := sim_forces s;
     sim_nodes := sim_nodes s;
     sim_on_tick := sim_on_tick s;
     sim_running := sim_running s |}.

(** Modelled from the spec: [setForce(name, forceFn)] registers or replaces
    a named force contributor. *)
Definition Simulation_force (name : string) (f : Force) (s : Simulation)
  : Simulation :=
  {| sim_alpha := sim_alpha s;
     sim_velocityDecay := sim_velocityDecay s;
     sim_forces := <[name := f]> (sim_forces s);
     sim_nodes := sim_nodes s;
     sim_on_tick := sim_on_tick s;
     sim_running := sim_running s |}.

(** Modelled from the spec: registers the step-completion observer (the
    source registers [ticked]). *)
Definition Simulation_on_tick (s : Simulation) : Simulation :=
  {| sim_alpha := sim_alpha s;
     sim_velocityDecay := sim_velocityDecay s;
     sim_forces := sim_forces s;
     sim_nodes := sim_nodes s;
     sim_on_tick := true;
     sim_running := sim_running s |}.

(** Modelled from the spec: [stop()] halts automatic stepping; the node
    state remains. *)
Definition Simulation_stop (s : Simulation) : Simulation :=
  {| sim_alpha := sim_alpha s;
     sim_velocityDecay := sim_velocityDecay s;
     sim_forces := sim_forces s;
     sim_nodes := sim_nodes s;
     sim_on_tick := sim_on_tick s;
     sim_running := false |}.

(** Modelled from the spec: sets the energy scalar ([simulation.alpha(a)]). *)
Definition Simulation_alpha (a : Q) (s : Simulation) : Simulation :=
  {| sim_alpha := a;
     sim_velocityDecay := sim_velocityDecay s;
     sim_forces := sim_forces s;
     sim_nodes := sim_nodes s;
     sim_on_tick := sim_on_tick s;
     sim_running := sim_running s |}.

(** Modelled from the spec: resumes automatic stepping
    ([simulation.restart()]); the source sets alpha in a call of its own
    just before. *)
Definition Simulation_restart (s : Simulation) : Simulation :=
  {| sim_alpha := sim_alpha s;
     sim_velocityDecay := sim_velocityDecay s;
     sim_forces := sim_forces s;
     sim_nodes := sim_nodes s;
     sim_on_tick := sim_on_tick s;
     sim_running := true |}.

(** The engine as the closure builds it, stopped at once. *)
Definition simulation : Simulation :=
  Simulation_stop
    (Simulation_on_tick
       (Simulation_force "charge" (forceManyBody charge)
          (Simulation_force "y" (forceY forceStrength (p_y center))
             (Simulation_force "x" (forceX forceStrength (p_x center))
                (Simulation_velocityDecay 0.2 forceSimulation))))).

(** Sets the layout to a single group: the x-force is registered again and
    the engine is restarted with alpha 1. *)
Definition groupBubbles (s : Simulation) : Simulation :=
  Simulation_restart
    (Simulation_alpha 1
       (Simulation_force "x" (forceX forceStrength (p_x center)) s)).

(** ** The rendered elements *)

(** [d3.rgb(c).darker()], kept as a term: the colour arithmetic of d3 is
    not among the sources. *)
Inductive Paint : Type :=
| darker (c : option string).

Record Circle : Type := {
  c_r : Q;
  c_fill : option string;
  c_stroke : Paint;
  c_stroke_width : Q
}.

(** [t_font_size] is the number in front of ['px']; [None] stands for the
    non-finite results JavaScript gives when the measured length is 0. *)
Record Text : Type := {
  t_text : JsVal;
  t_font_size : option Q;
  t_dy : string;
  t_fill_opacity : Q
}.

(** A scheduled transition of one attribute: it takes the attribute from
    the value the element has when it starts to [tr_target], in
    [tr_duration] milliseconds. *)
Record Transition : Type := {
  tr_target : Q;
  tr_duration : Q
}.

Inductive Transform : Type :=
| translate (x y : Q).

(** One [g.bubble] element with its circle and its label.  The element
    number [i] of the selection is bound to the node number [i]. *)
Record Bubble : Type := {
  b_circle : Circle;
  b_text : Text;
  b_transform : option Transform;
  b_circle_r : option Transition;
  b_text_fill_opacity : option Transition
}.

Record Svg : Type := {
  svg_width : Q;
  svg_height : Q
}.

(** The variables of the closure that its functions assign, together with
    the number of calls of [Math.random] made so far.  The variable [nodes]
    is only read inside [chart]; the node objects live on in the engine. *)
Record State : Type := {
  st_svg : option Svg;
  st_bubbles : option (list Bubble);
  st_simulation : Simulation;
  st_fillColor : Ordinal;
  st_random_calls : nat
}.

Definition bubbleChart : State :=
  {| st_svg := None;
     st_bubbles := None;
     st_simulation := simulation;
     st_fillColor := fillColor;
     st_random_calls := 0 |}.

(** [ticked]: every element is moved to the position of its node. *)
Definition ticked (nodes : list Node) (bubbles : list Bubble) : list Bubble :=
  zip_with
    (fun d b =>
       {| b_circle := b_circle b;
          b_text := b_text b;
          b_transform := Some (translate (n_x d) (n_y d));
          b_circle_r := b_circle_r b;
          b_text_fill_opacity := b_text_fill_opacity b |})
    nodes bubbles.

(** ** The data load *)

(** What the decoded document is: an array of records, or anything else. *)
Inductive Json : Type :=
| JArray (records : list JsObject)
| JOther.

(** Outcome of [await res.json()]. *)
Inductive Decoded : Type :=
| json_rejected (err : string)
| json_data (data : Json).

(** Outcome of [await fetch('./data/data.json')]. *)
Inductive Fetched : Type :=
| fetch_rejected (err : string)
| fetch_response (json : Decoded).

(** What the loader does that can be observed, in order. *)
Inductive Event : Type :=
| EFetch (url : string)
| EJson
| EChart (selector : string) (data : Json)
| EConsoleError (err : string).

Definition is_chart_call (e : Event) : bool :=
  match e with EChart _ _ => true | _ => false end.

Definition is_fetch (e : Event) : bool :=
  match e with EFetch _ => true | _ => false end.

(** ** A host for the examples *)

(** A host for the examples: the call number [k] of [Math.random] gives
    [1 / (k + 2)], every label is 40 units long, every selector matches,
    the cooling rate is 1/2 and the threshold is 0.001, and the repulsion
    is left out. *)
Definition sample_random (k : nat) : Q := 1 # Pos.of_nat (k + 2).

Definition sample_textLength (_ : JsVal) : Q := 40.

Definition sample_querySelector (_ : string) : bool := true.

Definition sample_repulsion
    (_ : Node -> Q) (_ : Q) (_ : list Node) (_ : Node) : Q * Q := (0, 0).

Definition sample_record : JsObject :=
  <["id" := JNumber 1]>
    (<["name" := JString "a"]>
       (<["theme" := JString "groei"]>
          (<["tag" := JString "t"]>
             (<["radius" := JNumber 5]> ∅)))).

Section Host.

(** The successive results of [Math.random()]: [random k] is the result
    of the call number [k]. *)
Variable random : nat -> Q.

(** [getComputedTextLength()] of a label with the given text. *)
Variable getComputedTextLength : JsVal -> Q.

(** Whether the document has an element for a selector. *)
Variable querySelector : string -> bool.

(** Modelled from the spec: the fixed multiplicative rate of the cooling
    schedule and the minimum threshold of alpha; section 9 leaves their
    values to the configuration. *)
Variable coolingRate : Q.
Variable alphaMin : Q.

(** Modelled from the spec: the velocity change the pairwise repulsion
    gives a node, from the strength function, alpha and the node set;
    the spec gives no formula for it. *)
Variable repulsion : (Node -> Q) -> Q -> list Node -> Node -> Q * Q.

(** *** Node creation *)

(** [rawData.map (d => {...})], started when [k] calls of [Math.random]
    have been made: every record costs two calls, first for [x], then
    for [y]. *)
Fixpoint createNodes (k : nat) (rawData : list JsObject) : list Node :=
  match rawData with
  | [] => []
  | d :: rest =>
      {| n_id := get d "id";
         n_radius := radius;
         n_name := get d "name";
         n_theme := get d "theme";
         n_tag := get d "tag";
         n_x := random k * width;
         n_y := random (S k) * height;
         n_vx := None;
         n_vy := None |} :: createNodes (S (S k)) rest
  end.

(** *** The step of the engine *)

(** Modelled from the spec: the velocity change one contributor gives a
    node.  A positioning force pulls along its axis by the distance to
    its target, scaled by its strength and by alpha. *)
Definition force_delta (f : Force) (a : Q) (nodes : list Node) (d : Node)
  : Q * Q :=
  match f with
  | forceX strength x => ((x - n_x d) * strength * a, 0)
  | forceY strength y => (0, (y - n_y d) * strength * a)
  | forceManyBody strength => repulsion strength a nodes d
  end.

(** Modelled from the spec: step 1, the contributions of all registered
    forces summed, all computed from the positions before the step. *)
Definition net_delta (s : Simulation) (d : Node) : Q * Q :=
  map_fold
    (fun _ f acc =>
       let dv := force_delta f (sim_alpha s) (sim_nodes s) d in
       (fst acc + fst dv, snd acc + snd dv))
    (0, 0) (sim_forces s).

(** Modelled from the spec: steps 2 and 3 for one node. *)
Definition move (s : Simulation) (d : Node) : Node :=
  let dv := net_delta s d in
  let vx := (default 0 (n_vx d) + fst dv) * sim_velocityDecay s in
  let vy := (default 0 (n_vy d) + snd dv) * sim_velocityDecay s in
  {| n_id := n_id d;
     n_radius := n_radius d;
     n_name := n_name d;
     n_theme := n_theme d;
     n_tag := n_tag d;
     n_x := n_x d + vx;
     n_y := n_y d + vy;
     n_vx := Some vx;
     n_vy := Some vy |}.

(** Modelled from the spec: steps 1 to 4 of the step algorithm. *)
Definition Simulation_tick (s : Simulation) : Simulation :=
  {| sim_alpha := sim_alpha s * coolingRate;
     sim_velocityDecay := sim_velocityDecay s;
     sim_forces := sim_forces s;
     sim_nodes := map (move s) (sim_nodes s);
     sim_on_tick := sim_on_tick s;
     sim_running := sim_running s |}.

(** Modelled from the spec: one scheduling tick of the engine.  While
    stepping is scheduled the step is taken and, when alpha has fallen
    below the threshold, stepping is stopped (step 6); otherwise nothing
    happens. *)
Definition Simulation_step (s : Simulation) : Simulation :=
  if sim_running s then
    let s1 := Simulation_tick s in
    if Qlt_le_dec (sim_alpha s1) alphaMin then Simulation_stop s1 else s1
  else s.

(** Modelled from the spec: [setNodes(nodes)].  The velocity of a node
    that has none is set to zero; stepping is (re)started when alpha is
    above the threshold. *)
Definition Simulation_nodes (nodes : list Node) (s : Simulation)
  : Simulation :=
  {| sim_alpha := sim_alpha s;
     sim_velocityDecay := sim_velocityDecay s;
     sim_forces := sim_forces s;
     sim_nodes :=
       map (fun d =>
              {| n_id := n_id d;
                 n_radius := n_radius d;
                 n_name := n_name d;
                 n_theme := n_theme d;
                 n_tag := n_tag d;
                 n_x := n_x d;
                 n_y := n_y d;
                 n_vx := Some (default 0 (n_vx d));
                 n_vy := Some (default 0 (n_vy d)) |}) nodes;
     sim_on_tick := sim_on_tick s;
     sim_running :=
       if Qlt_le_dec alphaMin (sim_alpha s) then true else sim_running s |}.

(** One scheduling tick of the whole chart: the engine steps and, when a
    step was taken and the observer is registered, [ticked] runs on the
    node set after the step. *)
Definition frame (st : State) : State :=
  let s := st_simulation st in
  let s1 := Simulation_step s in
  {| st_svg := st_svg st;
     st_bubbles :=
       if sim_running s && sim_on_tick s
       then ticked (sim_nodes s1) <$> st_bubbles st
       else st_bubbles st;
     st_simulation := s1;
     st_fillColor := st_fillColor st;
     st_random_calls := st_random_calls st |}.

(** *** The chart *)

(** The font size of a label: [Math.min(2 * d.radius, (2 * d.radius - 8)
    / this.getComputedTextLength() * 24)]. *)
Definition font_size (d : Node) : option Q :=
  let len := getComputedTextLength (n_name d) in
  if Qeq_bool len 0 then None
  else Some (Qmin (2 * n_radius d) ((2 * n_radius d - 8) / len * 24)).

(** The element appended for an entering node, with the attributes the
    two [append] chains give it. *)
Definition enter (d : Node) (fill stroke : option string) : Bubble :=
  {| b_circle :=
       {| c_r := 10;
          c_fill := fill;
          c_stroke := darker stroke;
          c_stroke_width := 2 |};
     b_text :=
       {| t_text := n_name d;
          t_font_size := font_size d;
          t_dy := ".35em";
          t_fill_opacity := 0 |};
     b_transform := None;
     b_circle_r := None;
     b_text_fill_opacity := None |}.

(** The two transitions scheduled on an element. *)
Definition transition (d : Node) (b : Bubble) : Bubble :=
  {| b_circle := b_circle b;
     b_text := b_text b;
     b_transform := b_transform b;
     b_circle_r :=
       Some {| tr_target := n_radius d; tr_duration := 2000 |};
     b_text_fill_opacity :=
       Some {| tr_target := 1; tr_duration := 2000 |} |}.

(** [chart(selector, rawData)] for an array of records.  The svg element
    is new, so the keyed data join finds no element to update and every
    node enters; when the selector matches nothing the selections are
    empty and no element is made.  The scale is called for every fill,
    then for every stroke. *)
Definition chart (selector : string) (rawData : list JsObject) (st : State)
  : State :=
  let nodes := createNodes (st_random_calls st) rawData in
  let entering := if querySelector selector then nodes else [] in
  let (fills, fc1) := Ordinal_map (st_fillColor st) (map n_theme entering) in
  let (strokes, fc2) := Ordinal_map fc1 (map n_theme entering) in
  let bubblesE :=
    zip_with (fun d c => enter d (fst c) (snd c)) entering (zip fills strokes) in
  {| st_svg :=
       if querySelector selector
       then Some {| svg_width := width; svg_height := height |}
       else None;
     st_bubbles := Some (zip_with transition entering bubblesE);
     st_simulation := groupBubbles (Simulation_nodes nodes (st_simulation st));
     st_fillColor := fc2;
     st_random_calls := (st_random_calls st + 2 * length rawData)%nat |}.

(** The call [myBubbleChart('body', data)] on whatever was decoded:
    [createNodes] throws at once when [data] has no [map]. *)
Definition chart_call (selector : string) (data : Json) (st : State)
  : string + State :=
  match data with
  | JArray rawData => inr (chart selector rawData st)
  | JOther => inl "TypeError: rawData.map is not a function"
  end.

(** The asynchronous loader at the end of the module, given the outcome
    of its fetch: the state of the chart afterwards and what was done. *)
Definition loader (fetched : Fetched) (st : State) : State * list Event :=
  match fetched with
  | fetch_rejected err =>
      (st, [EFetch "./data/data.json"; EConsoleError err])
  | fetch_response json =>
      match json with
      | json_rejected err =>
          (st, [EFetch "./data/data.json"; EJson; EConsoleError err])
      | json_data data =>
          match chart_call "body" data st with
          | inl err =>
              (st, [EFetch "./data/data.json"; EJson; EChart "body" data;
                    EConsoleError err])
          | inr st1 =>
              (st1, [EFetch "./data/data.json"; EJson; EChart "body" data])
          end
      end
  end.

(** [n] scheduling ticks of the engine in a row. *)
Fixpoint steps (n : nat) (s : Simulation) : Simulation :=
  match n with
  | O => s
  | S m => Simulation_step (steps m s)
  end.

(** A node of a given radius, for the tables below. *)
Definition with_radius (r : Q) : Node :=
  {| n_id := JUndefined; n_radius := r; n_name := JUndefined;
     n_theme := JUndefined; n_tag := JUndefined;
     n_x := 0; n_y := 0; n_vx := None; n_vy := None |}.

(** The state every element is in when [chart] returns. *)
Definition entered (b : Bubble) : Prop :=
  c_r (b_circle b) = 10 /\
  b_circle_r b = Some {| tr_target := 22; tr_duration := 2000 |} /\
  t_fill_opacity (b_text b) = 0 /\
  b_text_fill_opacity b = Some {| tr_target := 1; tr_duration := 2000 |}.

(** What it is for a stepping engine to settle at its tick number [N]:
    up to then every tick takes a step that lowers alpha, alpha stays at
    or above the threshold after each step but the last, and the last
    step takes alpha below the threshold and stops the stepping. *)
Definition settles_at (s : Simulation) (N : nat) : Prop :=
  (1 <= N)%nat /\
  (forall n : nat, (n < N)%nat ->
      sim_running (steps n s) = true /\
      sim_alpha (steps (S n) s) < sim_alpha (steps n s)) /\
  (forall n : nat, (1 <= n < N)%nat -> alphaMin <= sim_alpha (steps n s)) /\
  sim_alpha (steps N s) < alphaMin /\
  sim_running (steps N s) = false.

(** ** Definitions for the further properties *)


(** Two records that [createNodes] cannot tell apart: they agree on the
    four properties it reads. *)
Definition same_fields (d e : JsObject) : Prop :=
  get d "id" = get e "id" /\ get d "name" = get e "name" /\
  get d "theme" = get e "theme" /\ get d "tag" = get e "tag".

(** A node as the engine holds it once [chart] has handed it over: at
    rest. *)
Definition at_rest (d : Node) : Node :=
  {| n_id := n_id d;
     n_radius := n_radius d;
     n_name := n_name d;
     n_theme := n_theme d;
     n_tag := n_tag d;
     n_x := n_x d;
     n_y := n_y d;
     n_vx := Some 0;
     n_vy := Some 0 |}.

(** [n] scheduling ticks of the whole chart in a row. *)
Fixpoint frames (n : nat) (st : State) : State :=
  match n with
  | O => st
  | S m => frame (frames m st)
  end.

(** The states the chart can be in: the closure as built, and what calls
    of [chart] and scheduling ticks make of it. *)
Inductive reachable : State -> Prop :=
| reachable_built : reachable bubbleChart
| reachable_chart (selector : string) (rawData : list JsObject) (st : State) :
    reachable st -> reachable (chart selector rawData st)
| reachable_frame (st : State) :
    reachable st -> reachable (frame st).

(** An element shows its node: it has not been placed yet, or it sits at
    the position of the node. *)
Definition shows (d : Node) (b : Bubble) : Prop :=
  b_transform b = None \/ b_transform b = Some (translate (n_x d) (n_y d)).

(** A scale that has the range of another and a domain that starts with
    the domain of the other. *)
Definition extends (s s' : Ordinal) : Prop :=
  o_range s' = o_range s /\
  exists extra : list JsVal, o_domain s' = o_domain s ++ extra.

(** Everything the properties below draw on, kept by [chart] and by the
    scheduling ticks. *)
Definition chart_inv (st : State) : Prop :=
  let s := st_simulation st in
  sim_forces s = sim_forces simulation /\
  sim_velocityDecay s = 0.2 /\
  sim_on_tick s = true /\
  (sim_running s = true -> is_Some (st_bubbles st)) /\
  Forall (fun d => n_radius d = 22 /\ is_Some (n_vx d) /\ is_Some (n_vy d))
         (sim_nodes s) /\
  (forall bs : list Bubble,
      st_bubbles st = Some bs ->
      (bs = [] \/ length bs = length (sim_nodes s)) /\
      forall (i : nat) (b : Bubble) (d : Node),
        bs !! i = Some b -> sim_nodes s !! i = Some d -> shows d b) /\
  exists keys : list JsVal, st_fillColor st = Ordinal_calls fillColor keys.

(** * Properties *)

(** ** Charge *)

Example charge_22 : charge (with_radius 22) == -242.
Proof. reflexivity. Qed.

Example charge_table :
  map (fun fs => map (fun r => Qred (charge_closure fs (with_radius r)))
                     [10; 22; 50])
      [0; 0.5; 1]
  = [[0; 0; 0]; [-50; -242; -1250]; [-100; -484; -2500]].
Proof. reflexivity. Qed.

Lemma binary_round_aux_negb (sx : bool) (m e : Z) (l : location) :
  binary_round_aux 53 1024 (negb sx) m e l
  = SFopp (binary_round_aux 53 1024 sx m e l).
Proof.
  unfold binary_round_aux.
  destruct (shr_fexp 53 1024 m e l) as [mrs1 e1].
  destruct (shr_fexp 53 1024 _ e1 loc_Exact) as [mrs2 e2].
  destruct (shr_m mrs2); [done| |done].
  by destruct (Z.leb e2 (1024 - 53)).
Qed.

Lemma charge_binary64_opp (fs sq : spec_float) :
  charge_binary64 fs sq = SFopp (b64_mul fs sq).
Proof.
  unfold charge_binary64, b64_mul.
  destruct sq as [s|s| |s m e], fs as [t|t| |t n f]; cbn;
    try reflexivity; try (by destruct s, t).
  rewrite <- binary_round_aux_negb, Pos.mul_comm, Z.add_comm.
  by destruct s, t.
Qed.

Example charge_binary64_table :
  map (fun fs => map (fun r => charge_binary64 fs (b64_mul r r))
                     [b64 10 0; b64 22 0; b64 50 0])
      [S754_zero false; b64 1 (-1); b64 1 0]
  = [[S754_zero true; S754_zero true; S754_zero true];
     [b64 (-50) 0; b64 (-242) 0; b64 (-1250) 0];
     [b64 (-100) 0; b64 (-484) 0; b64 (-2500) 0]].
Proof. vm_compute. reflexivity. Qed.

(** C1. For every node and every value of the strength, the charge is
    the negated product of the strength and the square of the radius of
    the node; so it is for the strength of the closure, and for the
    radii 10, 22, 50 and the strengths 0, 0.5, 1 in particular.  On
    binary64 values the charge is the negation of the rounded product of
    the strength and the square as well, whatever the two are. *)
Theorem charge_is_negated_strength_times_square :
  (forall (fs : Q) (d : Node),
      charge_closure fs d = - (fs * n_radius d ^ 2)) /\
  (forall d : Node, charge d = - (forceStrength * n_radius d ^ 2)) /\
  Forall
    (fun fs =>
       Forall (fun r => charge_closure fs (with_radius r) == - (fs * r ^ 2))
              [10; 22; 50])
    [0; 0.5; 1] /\
  (forall fs sq : spec_float,
      charge_binary64 fs sq = SFopp (b64_mul fs sq)).
Proof.
  assert (H : forall (fs : Q) (d : Node),
             charge_closure fs d = - (fs * n_radius d ^ 2)).
  { intros fs d. unfold charge_closure.
    destruct (n_radius d ^ 2) as [n m], fs as [p q].
    unfold Qmult, Qopp; cbn [Qnum Qden].
    f_equal; [ lia | apply Pos.mul_comm ]. }
  split; [exact H|]. split; [|split].
  - intros d. apply H.
  - repeat constructor.
  - exact charge_binary64_opp.
Qed.

(** ** Node creation *)

Lemma createNodes_length (k : nat) (rawData : list JsObject) :
  length (createNodes k rawData) = length rawData.
Proof.
  revert k. induction rawData as [|d rest IH]; intros k; cbn; [done|].
  by rewrite IH.
Qed.

Lemma createNodes_lookup (k i : nat) (rawData : list JsObject) (d : JsObject) :
  rawData !! i = Some d ->
  createNodes k rawData !! i =
    Some {| n_id := get d "id";
            n_radius := radius;
            n_name := get d "name";
            n_theme := get d "theme";
            n_tag := get d "tag";
            n_x := random (k + 2 * i) * width;
            n_y := random (S (k + 2 * i)) * height;
            n_vx := None;
            n_vy := None |}.
Proof.
  revert k i. induction rawData as [|d0 rest IH]; intros k i Hi; [done|].
  destruct i as [|i].
  - injection Hi as ->. cbn. by rewrite Nat.add_0_r.
  - change (createNodes (S (S k)) rest !! i = Some
      {| n_id := get d "id"; n_radius := radius; n_name := get d "name";
         n_theme := get d "theme"; n_tag := get d "tag";
         n_x := random (k + 2 * S i) * width;
         n_y := random (S (k + 2 * S i)) * height;
         n_vx := None; n_vy := None |}).
    rewrite (IH (S (S k)) i Hi).
    by replace (S (S k) + 2 * i)%nat with (k + 2 * S i)%nat by lia.
Qed.

Lemma scaled_in_bounds (u w : Q) :
  0 < w -> 0 <= u < 1 -> 0 <= u * w < w.
Proof. intros Hw [H0 H1]. split; nra. Qed.

(** C4. When every result of [Math.random] lies in [0, 1), [createNodes]
    returns one node per record, in order; the node of a record has the
    [id], [name], [theme] and [tag] of the record, and its position is a
    random point of the canvas: [0 <= x < width] and [0 <= y < height]. *)
Theorem createNodes_one_node_per_record
    (Hrandom : forall k : nat, 0 <= random k < 1)
    (k : nat) (rawData : list JsObject) :
  length (createNodes k rawData) = length rawData /\
  forall (i : nat) (d : JsObject),
    rawData !! i = Some d ->
    exists n : Node,
      createNodes k rawData !! i = Some n /\
      n_id n = get d "id" /\ n_name n = get d "name" /\
      n_theme n = get d "theme" /\ n_tag n = get d "tag" /\
      n_x n = random (k + 2 * i) * width /\
      n_y n = random (S (k + 2 * i)) * height /\
      0 <= n_x n < width /\ 0 <= n_y n < height.
Proof.
  split; [apply createNodes_length|].
  intros i d Hi. eexists. split; [by apply createNodes_lookup|].
  cbn. repeat split; try reflexivity;
    try (apply scaled_in_bounds; [reflexivity | apply Hrandom]).
Qed.

(** C9. Whatever the records hold, every node made by [createNodes] has
    the radius of the closure, 22, which is positive: the radii of the
    nodes are as many copies of 22 as there are records. *)
Theorem createNodes_uniform_radius (k : nat) (rawData : list JsObject) :
  radius = 22 /\
  Forall (fun n => n_radius n = 22 /\ 0 < n_radius n) (createNodes k rawData) /\
  map n_radius (createNodes k rawData) = replicate (length rawData) 22.
Proof.
  split; [reflexivity|]. split.
  - revert k. induction rawData as [|d rest IH]; intros k; cbn.
    + constructor.
    + constructor; [split; reflexivity | apply IH].
  - revert k. induction rawData as [|d rest IH]; intros k; cbn; [done|].
    by rewrite IH.
Qed.

(** ** The colour scale *)

Example fillColor_domain :
  o_domain fillColor =
    [JString "groei"; JString "onderneming"; JString "voeding";
     JString "financieel"].
Proof. reflexivity. Qed.

Example fillColor_first_unmapped :
  fst (Ordinal_call fillColor (JString "sport")) = Some "#ffca3a".
Proof. reflexivity. Qed.

Example fillColor_second_unmapped :
  fst (Ordinal_call (Ordinal_calls fillColor [JString "sport"]) (JString "spel"))
  = Some "#3ddc97".
Proof. reflexivity. Qed.

Lemma index_of_app (d : JsVal) (l1 l2 : list JsVal) :
  index_of d (l1 ++ l2) =
    match index_of d l1 with
    | Some i => Some i
    | None => (fun j => (length l1 + j)%nat) <$> index_of d l2
    end.
Proof.
  induction l1 as [|k l1 IH]; cbn.
  - by destruct (index_of d l2).
  - destruct (JsVal_eqb k d); [done|]. rewrite IH.
    destruct (index_of d l1); [done|]. by destruct (index_of d l2).
Qed.

(** Lookups never touch the range and only append to the domain. *)
Lemma Ordinal_calls_grows (s : Ordinal) (keys : list JsVal) :
  o_range (Ordinal_calls s keys) = o_range s /\
  exists extra : list JsVal,
    o_domain (Ordinal_calls s keys) = o_domain s ++ extra.
Proof.
  revert s. induction keys as [|d keys IH]; intros s; cbn.
  - split; [done|]. exists []. by rewrite app_nil_r.
  - destruct (IH (snd (Ordinal_call s d))) as [Hr [extra He]].
    unfold Ordinal_calls in *. rewrite Hr, He. unfold Ordinal_call.
    destruct (index_of d (o_domain s)); cbn.
    + split; [done|]. by exists extra.
    + split; [done|]. exists (d :: extra). by rewrite <- app_assoc.
Qed.

Lemma Ordinal_call_in_range (s : Ordinal) (d : JsVal) :
  o_range s <> [] ->
  exists c : string, fst (Ordinal_call s d) = Some c /\ c ∈ o_range s.
Proof.
  intros Hne.
  assert (Hlt : forall i : nat, (i mod length (o_range s) < length (o_range s))%nat).
  { intros i. apply Nat.mod_upper_bound. by destruct (o_range s). }
  unfold Ordinal_call.
  destruct (index_of d (o_domain s)) as [i|]; cbn;
    [ destruct (lookup_lt_is_Some_2 _ _ (Hlt i)) as [c Hc]
    | destruct (lookup_lt_is_Some_2 _ _ (Hlt (length (o_domain s)))) as [c Hc] ];
    exists c; (split; [done|]); apply list_elem_of_lookup; eauto.
Qed.

(** C8. The colour scale of the closure has the four categories as its
    domain and the four colours as its range, in this order; after any
    lookups made before, the categories of the domain are looked up to
    the colours of the range, position by position; and the lookup of
    any key at all, so of every category outside the domain, yields a
    colour (one of the range). *)
Theorem fillColor_lookup (keys : list JsVal) :
  let s := Ordinal_calls fillColor keys in
  o_domain fillColor =
    [JString "groei"; JString "onderneming"; JString "voeding";
     JString "financieel"] /\
  o_range fillColor = ["#ffca3a"; "#3ddc97"; "#8ac926"; "#ff4f78"] /\
  map (fun k => fst (Ordinal_call s k)) (o_domain fillColor) =
    map Some (o_range fillColor) /\
  forall d : JsVal,
    exists c : string,
      fst (Ordinal_call s d) = Some c /\ c ∈ o_range fillColor.
Proof.
  intros s.
  destruct (Ordinal_calls_grows fillColor keys) as [Hr [extra He]].
  fold s in Hr, He.
  split; [reflexivity|]. split; [reflexivity|]. split.
  - change (o_domain fillColor) with
      [JString "groei"; JString "onderneming"; JString "voeding";
       JString "financieel"] in *.
    cbn [map]. unfold Ordinal_call. rewrite Hr, He.
    rewrite !index_of_app. reflexivity.
  - intros d. rewrite <- Hr. apply Ordinal_call_in_range.
    rewrite Hr. discriminate.
Qed.

(** ** The forces of the engine and the grouped layout *)

Lemma simulation_forces :
  sim_forces simulation !! "x" = Some (forceX forceStrength (p_x center)) /\
  sim_forces simulation !! "y" = Some (forceY forceStrength (p_y center)) /\
  sim_forces simulation !! "charge" = Some (forceManyBody charge).
Proof. repeat split. Qed.

Lemma center_value : p_x center == 940 / 3 /\ p_y center == 300.
Proof. split; reflexivity. Qed.

(** C3. Whatever the engine was doing, [groupBubbles] leaves it with an
    x-force that pulls every node towards the x of the one shared centre,
    with alpha 1 and with stepping scheduled, so that the next scheduling
    tick takes a step; the other forces are as before.  A second call
    right after the first gives a result again, with alpha 1 and
    stepping scheduled: the very state the first call left. *)
Theorem groupBubbles_regroups (s : Simulation) :
  let s1 := groupBubbles s in
  let s2 := groupBubbles s1 in
  sim_forces s1 !! "x" = Some (forceX forceStrength (p_x center)) /\
  (forall (a : Q) (nodes : list Node) (d : Node),
      force_delta (forceX forceStrength (p_x center)) a nodes d =
        ((p_x center - n_x d) * forceStrength * a, 0)) /\
  (forall name : string,
      name <> "x" -> sim_forces s1 !! name = sim_forces s !! name) /\
  sim_alpha s1 = 1 /\ sim_running s1 = true /\
  sim_alpha (Simulation_step s1) = 1 * coolingRate /\
  sim_alpha s2 = 1 /\ sim_running s2 = true /\
  sim_forces s2 !! "x" = Some (forceX forceStrength (p_x center)) /\
  s2 = s1.
Proof.
  cbn zeta. unfold groupBubbles; cbn.
  repeat split.
  - apply lookup_insert_eq.
  - intros name Hne. by apply lookup_insert_ne.
  - unfold Simulation_step; cbn.
    by destruct (Qlt_le_dec (1 * coolingRate) alphaMin).
  - apply lookup_insert_eq.
  - unfold Simulation_restart, Simulation_alpha, Simulation_force; cbn.
    by rewrite insert_insert_eq.
Qed.

(** C10. The x-force of the engine as built is the one [groupBubbles]
    installs: strength [forceStrength], target [center.x].  So for an
    engine whose x-force is still the one it was built with,
    [groupBubbles] leaves the forces as they are, and all it does is set
    alpha to 1 and schedule stepping. *)
Theorem groupBubbles_only_restarts (s : Simulation)
    (Hx : sim_forces s !! "x" = sim_forces simulation !! "x") :
  sim_forces simulation !! "x" = Some (forceX forceStrength (p_x center)) /\
  sim_forces (groupBubbles s) = sim_forces s /\
  groupBubbles s = Simulation_restart (Simulation_alpha 1 s) /\
  groupBubbles s =
    {| sim_alpha := 1;
       sim_velocityDecay := sim_velocityDecay s;
       sim_forces := sim_forces s;
       sim_nodes := sim_nodes s;
       sim_on_tick := sim_on_tick s;
       sim_running := true |}.
Proof.
  destruct simulation_forces as [Hsx _]. rewrite Hsx in Hx.
  assert (Hid : <["x" := forceX forceStrength (p_x center)]> (sim_forces s)
                = sim_forces s) by by apply insert_id.
  split; [exact Hsx|].
  unfold groupBubbles, Simulation_restart, Simulation_alpha, Simulation_force;
    cbn [sim_alpha sim_velocityDecay sim_forces sim_nodes sim_on_tick
         sim_running].
  by rewrite Hid.
Qed.

(** C6, as the code has it.  The x-force and the y-force of the engine
    as built have the targets [center.x = 940 / 3] (313 and a third) and
    [center.y = 300].  While alpha is positive, the pull of the x-force
    on a node is towards [x = 940 / 3] and vanishes only there, and the
    pull of the y-force is towards [y = 300] and vanishes only there. *)
Theorem centering_forces_target_center
    (a : Q) (Ha : 0 < a) (nodes : list Node) (d : Node) :
  sim_forces simulation !! "x" = Some (forceX forceStrength (p_x center)) /\
  sim_forces simulation !! "y" = Some (forceY forceStrength (p_y center)) /\
  p_x center == 940 / 3 /\ p_y center == 300 /\
  let dx := fst (force_delta (forceX forceStrength (p_x center)) a nodes d) in
  let dy := snd (force_delta (forceY forceStrength (p_y center)) a nodes d) in
  (0 < dx <-> n_x d < 940 / 3) /\ (dx < 0 <-> 940 / 3 < n_x d) /\
  (dx == 0 <-> n_x d == 940 / 3) /\
  (0 < dy <-> n_y d < 300) /\ (dy < 0 <-> 300 < n_y d) /\
  (dy == 0 <-> n_y d == 300).
Proof.
  split; [reflexivity|]. split; [reflexivity|].
  split; [reflexivity|]. split; [reflexivity|].
  cbn. set (x := n_x d). set (y := n_y d).
  assert (Hx : (width / 3 - x) * forceStrength * a
               == ((940 # 3) - x) * ((1 # 2) * a)).
  { unfold width, forceStrength. field. }
  assert (Hy : (height / 2 - y) * forceStrength * a
               == (300 - y) * ((1 # 2) * a)).
  { unfold height, forceStrength. field. }
  assert (Hc : 940 / 3 == 940 # 3) by reflexivity.
  rewrite Hx, Hy, Hc.
  assert (Hh : 0 < (1 # 2) * a) by lra.
  generalize dependent ((1 # 2) * a). intros h _ _ Hh.
  repeat split; intros H; nra.
Qed.

(** ** The entrance of the elements *)

Lemma Ordinal_map_length (s : Ordinal) (keys : list JsVal) :
  length (fst (Ordinal_map s keys)) = length keys.
Proof.
  revert s. induction keys as [|d keys IH]; intros s; cbn; [done|].
  destruct (Ordinal_call s d) as [c s1]. specialize (IH s1).
  destruct (Ordinal_map s1 keys) as [cs s2]. cbn in *. by rewrite IH.
Qed.

Lemma Forall_zip_with_l {A B C : Type} (P : C -> Prop) (R : A -> Prop)
    (f : A -> B -> C) (l : list A) (k : list B) :
  Forall R l -> (forall a b, R a -> P (f a b)) -> Forall P (zip_with f l k).
Proof.
  intros Hl Hf. revert k.
  induction Hl as [|a l Ha Hl IH]; intros [|b k]; cbn; constructor; auto.
Qed.

Lemma createNodes_radius (k : nat) (rawData : list JsObject) :
  Forall (fun d => n_radius d = radius) (createNodes k rawData).
Proof.
  revert k. induction rawData as [|d rest IH]; intros k; cbn;
    constructor; auto.
Qed.

(** C2, as the code has it.  [chart] makes one element per record (none
    when the selector matches nothing).  The label of every element has
    opacity 0 and a transition to opacity 1 in 2000 ms, and its circle
    has a transition to the radius of the node, 22, in the same 2000 ms;
    but the circle is made with the radius attribute 10, so its radius
    grows from 10, not from 0. *)
Theorem chart_entrance_starts_at_radius_10
    (selector : string) (rawData : list JsObject) (st : State) :
  let bubbles := default [] (st_bubbles (chart selector rawData st)) in
  length bubbles = (if querySelector selector then length rawData else 0%nat) /\
  Forall entered bubbles /\
  Forall (fun b => ~ c_r (b_circle b) == 0) bubbles.
Proof.
  cbn zeta. unfold chart.
  set (nodes := createNodes (st_random_calls st) rawData).
  set (entering := if querySelector selector then nodes else []).
  pose proof (Ordinal_map_length (st_fillColor st) (map n_theme entering))
    as Hf.
  destruct (Ordinal_map (st_fillColor st) (map n_theme entering))
    as [fills fc1].
  pose proof (Ordinal_map_length fc1 (map n_theme entering)) as Hs.
  destruct (Ordinal_map fc1 (map n_theme entering)) as [strokes fc2].
  cbn in *. rewrite length_map in Hf, Hs.
  assert (Hr : Forall (fun d => n_radius d = radius) entering).
  { subst entering. destruct (querySelector selector);
      [apply createNodes_radius | constructor]. }
  assert (Hz : forall (l : list Node) (k : list (option string * option string)),
             zip_with transition l
               (zip_with (fun d c => enter d (fst c) (snd c)) l k)
             = zip_with (fun d c => transition d (enter d (fst c) (snd c))) l k).
  { induction l as [|x l IH]; intros [|c k]; cbn; [done..|]. by rewrite IH. }
  rewrite Hz.
  split; [|split].
  - rewrite !length_zip_with, Hf, Hs.
    subst entering nodes. destruct (querySelector selector); cbn; [|done].
    rewrite createNodes_length. lia.
  - eapply Forall_zip_with_l; [exact Hr|].
    intros d c Hd. unfold entered, transition; cbn. rewrite Hd.
    repeat split.
  - eapply Forall_zip_with_l; [exact Hr|].
    intros d c _. cbn. discriminate.
Qed.

(** ** The data load *)

(** C7. When the fetch or the decoding fails, the error is logged, the
    chart function is not called and the state of the chart is untouched;
    when both succeed, the chart function is called once, with the
    decoded data.  In every case the fetch is made once: nothing is
    tried again. *)
Theorem loader_outcomes (st : State) :
  (forall err : string,
      loader (fetch_rejected err) st =
        (st, [EFetch "./data/data.json"; EConsoleError err])) /\
  (forall err : string,
      loader (fetch_response (json_rejected err)) st =
        (st, [EFetch "./data/data.json"; EJson; EConsoleError err])) /\
  (forall data : Json,
      List.filter is_chart_call
        (snd (loader (fetch_response (json_data data)) st))
      = [EChart "body" data]) /\
  (forall rawData : list JsObject,
      loader (fetch_response (json_data (JArray rawData))) st =
        (chart "body" rawData st,
         [EFetch "./data/data.json"; EJson; EChart "body" (JArray rawData)])) /\
  (forall fetched : Fetched,
      List.filter is_fetch (snd (loader fetched st))
      = [EFetch "./data/data.json"]).
Proof.
  split; [done|]. split; [done|]. split; [|split; [done|]].
  - intros [rawData|]; reflexivity.
  - intros [err|[err|[rawData|]]]; reflexivity.
Qed.

(** ** Cooling *)

Lemma Simulation_step_alpha (s : Simulation) :
  sim_running s = true ->
  sim_alpha (Simulation_step s) = sim_alpha s * coolingRate.
Proof.
  intros Hrun. unfold Simulation_step. rewrite Hrun. cbn.
  by destruct (Qlt_le_dec (sim_alpha s * coolingRate) alphaMin).
Qed.

Lemma Simulation_step_running (s : Simulation) :
  sim_running s = true ->
  sim_running (Simulation_step s) = true <->
  alphaMin <= sim_alpha s * coolingRate.
Proof.
  intros Hrun. unfold Simulation_step. rewrite Hrun. cbn.
  destruct (Qlt_le_dec (sim_alpha s * coolingRate) alphaMin) as [Hlt|Hle];
    cbn; split; intros H; try done.
  exfalso. lra.
Qed.

Lemma Simulation_step_idle (s : Simulation) :
  sim_running s = false -> Simulation_step s = s.
Proof. intros Hrun. unfold Simulation_step. by rewrite Hrun. Qed.

Lemma steps_idle (s : Simulation) (m : nat) :
  sim_running s = false -> steps m s = s.
Proof.
  intros Hrun. induction m as [|m IH]; [done|].
  cbn. rewrite IH. by apply Simulation_step_idle.
Qed.

Lemma steps_succ_r (n : nat) (s : Simulation) :
  steps (S n) s = steps n (Simulation_step s).
Proof. induction n as [|n IH]; [done|]. cbn. by rewrite <- IH. Qed.

Lemma pow_nat_bounds (r : Q) (n : nat) :
  0 < r < 1 -> 0 < pow_nat r n <= 1.
Proof.
  intros Hr. induction n as [|n IH]; cbn; [lra|]. nra.
Qed.

Lemma inject_nat_succ (n : nat) :
  inject_Z (Z.of_nat (S n)) == inject_Z (Z.of_nat n) + 1.
Proof. rewrite Nat2Z.inj_succ. unfold Z.succ. by rewrite inject_Z_plus. Qed.

(** Bernoulli's inequality, in the form used below. *)
Lemma pow_nat_bernoulli (r : Q) (n : nat) :
  0 < r < 1 -> (1 + inject_Z (Z.of_nat n) * (1 - r)) * pow_nat r n <= 1.
Proof.
  intros Hr. induction n as [|n IH].
  - change (inject_Z (Z.of_nat 0)) with 0. cbn [pow_nat]. lra.
  - rewrite inject_nat_succ.
    pose proof (pow_nat_bounds r n Hr) as Hp.
    assert (0 <= inject_Z (Z.of_nat n)).
    { change 0 with (inject_Z 0). rewrite <- Zle_Qle. lia. }
    cbn [pow_nat].
    generalize dependent (pow_nat r n). intros p IH Hp.
    generalize dependent (inject_Z (Z.of_nat n)). intros k IH Hk.
    assert (A1 : 0 <= r * (1 - (1 + k * (1 - r)) * p))
      by (apply Qmult_le_0_compat; lra).
    assert (A2 : 0 <= (1 - r) * (r * (1 - p)))
      by (repeat apply Qmult_le_0_compat; lra).
    assert (A3 : 0 <= (1 - r) * (1 - r))
      by (apply Qmult_le_0_compat; lra).
    lra.
Qed.

Lemma nat_above (q : Q) : exists n : nat, q < inject_Z (Z.of_nat n).
Proof.
  exists (Z.to_nat (Z.max 0 (Qnum q) + 1)).
  rewrite Z2Nat.id by lia.
  destruct q as [a b]. unfold Qlt; cbn. nia.
Qed.

(** The powers of a rate below 1 fall below every positive bound. *)
Lemma pow_nat_small (r a eps : Q) :
  0 < r < 1 -> 0 < a -> 0 < eps -> exists n : nat, a * pow_nat r n < eps.
Proof.
  intros Hr Ha He.
  assert (Hd : 0 < eps * (1 - r)) by (apply Qmult_lt_0_compat; lra).
  destruct (nat_above (a / (eps * (1 - r)))) as [n Hn].
  exists n.
  pose proof (pow_nat_bernoulli r n Hr) as Hb.
  pose proof (pow_nat_bounds r n Hr) as Hp.
  assert (Hk : a < inject_Z (Z.of_nat n) * (eps * (1 - r))).
  { assert (Hq : a == a / (eps * (1 - r)) * (eps * (1 - r))).
    { field. split; lra. }
    rewrite Hq at 1. apply Qmult_lt_r; assumption. }
  generalize dependent (pow_nat r n). intros p Hb Hp.
  generalize dependent (inject_Z (Z.of_nat n)). intros k _ Hb Hk.
  assert (B1 : 0 <= eps * (1 - (1 + k * (1 - r)) * p))
    by (apply Qmult_le_0_compat; lra).
  assert (B2 : 0 < p * (eps + (k * (eps * (1 - r)) - a)))
    by (apply Qmult_lt_0_compat; lra).
  lra.
Qed.

Lemma settles_after_fuel :
  0 < coolingRate < 1 ->
  forall (fuel : nat) (s : Simulation),
    sim_running s = true -> 0 < sim_alpha s ->
    sim_alpha s * pow_nat coolingRate (S fuel) < alphaMin ->
    exists N : nat, settles_at s N.
Proof.
  intros Hr fuel. induction fuel as [|fuel IH]; intros s Hrun Hpos Hlow.
  - exists 1%nat. cbn in Hlow.
    assert (Hl : sim_alpha s * coolingRate < alphaMin) by lra.
    pose proof (Simulation_step_alpha s Hrun) as Ha.
    pose proof (Simulation_step_running s Hrun) as Hs.
    split; [|split; [|split; [|split]]]; cbn [steps].
    + lia.
    + intros n Hn. assert (n = 0%nat) as -> by lia. cbn [steps].
      rewrite Ha. split; [done | nra].
    + intros n Hn. lia.
    + by rewrite Ha.
    + destruct (sim_running (Simulation_step s)); [|done].
      exfalso. assert (alphaMin <= sim_alpha s * coolingRate) by by apply Hs.
      lra.
  - pose proof (Simulation_step_alpha s Hrun) as Ha.
    pose proof (Simulation_step_running s Hrun) as Hs.
    destruct (sim_running (Simulation_step s)) eqn:Hrun1.
    + assert (Hge : alphaMin <= sim_alpha s * coolingRate) by by apply Hs.
      destruct (IH (Simulation_step s)) as [N (HN & Hdec & Hab & Hend & Hstop)].
      * exact Hrun1.
      * rewrite Ha. nra.
      * rewrite Ha. cbn [pow_nat] in *. lra.
      * exists (S N). split; [|split; [|split; [|split]]].
        -- lia.
        -- intros n Hn. destruct n as [|n].
           ++ cbn [steps]. rewrite Ha. split; [done | nra].
           ++ rewrite (steps_succ_r (S n)), (steps_succ_r n). apply Hdec. lia.
        -- intros n Hn. destruct n as [|n]; [lia|]. rewrite steps_succ_r.
           destruct n as [|n].
           ++ cbn [steps]. by rewrite Ha.
           ++ apply Hab. lia.
        -- rewrite steps_succ_r. exact Hend.
        -- rewrite steps_succ_r. exact Hstop.
    + exists 1%nat.
      assert (Hl : sim_alpha s * coolingRate < alphaMin).
      { destruct (Qlt_le_dec (sim_alpha s * coolingRate) alphaMin) as [H|H];
          [done|]. apply Hs in H. congruence. }
      split; [|split; [|split; [|split]]]; cbn [steps].
      * lia.
      * intros n Hn. assert (n = 0%nat) as -> by lia. cbn [steps].
        rewrite Ha. split; [done | nra].
      * intros n Hn. lia.
      * by rewrite Ha.
      * done.
Qed.

(** C5.  With a cooling rate strictly between 0 and 1 and a positive
    threshold: after the restart with alpha 1, alpha is 1 and stepping is
    scheduled; there is a tick number [N] up to which every scheduling
    tick takes a step that makes alpha strictly smaller, alpha being at
    or above the threshold after every step before the last; the step
    number [N] takes alpha below the threshold and stops the stepping;
    from then on the scheduling ticks change nothing, and a restart
    schedules the stepping again. *)
Theorem restart_cools_until_settled
    (Hrate : 0 < coolingRate < 1) (Hmin : 0 < alphaMin) (s : Simulation) :
  let s0 := Simulation_restart (Simulation_alpha 1 s) in
  sim_alpha s0 = 1 /\ sim_running s0 = true /\
  exists N : nat,
    (1 <= N)%nat /\
    (forall n : nat, (n < N)%nat ->
        sim_running (steps n s0) = true /\
        sim_alpha (steps (S n) s0) < sim_alpha (steps n s0)) /\
    (forall n : nat, (1 <= n < N)%nat -> alphaMin <= sim_alpha (steps n s0)) /\
    sim_alpha (steps N s0) < alphaMin /\
    sim_running (steps N s0) = false /\
    (forall m : nat, (N <= m)%nat ->
        steps m s0 = steps N s0 /\
        sim_running (Simulation_restart (steps m s0)) = true).
Proof.
  intros s0. split; [done|]. split; [done|].
  destruct (pow_nat_small coolingRate (sim_alpha s0 * coolingRate) alphaMin)
    as [fuel Hfuel]; [done | cbn; lra | done |].
  destruct (settles_after_fuel Hrate fuel s0) as [N HN].
  - done.
  - cbn. lra.
  - cbn [pow_nat]. lra.
  - destruct HN as (H1 & Hdec & Hab & Hend & Hstop).
    exists N. repeat (split; [assumption|]).
    intros m Hm. split; [|done].
    replace m with ((m - N) + N)%nat by lia.
    generalize (m - N)%nat as k. intros k. induction k as [|k IHk]; [done|].
    cbn [Nat.add steps]. rewrite IHk. by apply Simulation_step_idle.
Qed.

(** * Further properties *)

(** ** Node creation *)

(** [createNodes] works record by record: the nodes of two arrays put end
    to end are the nodes of the first followed by the nodes of the second,
    made with the random numbers that come after those of the first; and
    no record gives no node. *)
Theorem createNodes_app (k : nat) (l1 l2 : list JsObject) :
  createNodes k (l1 ++ l2)
  = createNodes k l1 ++ createNodes (k + 2 * length l1) l2 /\
  createNodes k [] = [].
Proof.
  split; [|done].
  revert k. induction l1 as [|d l1 IH]; intros k; cbn.
  - by rewrite Nat.add_0_r.
  - rewrite IH. do 3 f_equal. lia.
Qed.

(** [createNodes] reads nothing of a record but [id], [name], [theme] and
    [tag]: arrays whose records agree on these four, one by one, give the
    same nodes, whatever else the records hold. *)
Theorem createNodes_reads_four_fields
    (k : nat) (l1 l2 : list JsObject) (Hsame : Forall2 same_fields l1 l2) :
  createNodes k l1 = createNodes k l2.
Proof.
  revert k. induction Hsame as [|d e l1 l2 (Hi & Hn & Ht & Hg) _ IH];
    intros k; cbn; [done|].
  by rewrite Hi, Hn, Ht, Hg, IH.
Qed.

(** ** Charge *)



(** ** The step-completion callback *)


(** ** The colour scale under repeated lookups *)

Lemma extends_refl (s : Ordinal) : extends s s.
Proof. split; [done|]. exists []. by rewrite app_nil_r. Qed.

Lemma extends_trans (s1 s2 s3 : Ordinal) :
  extends s1 s2 -> extends s2 s3 -> extends s1 s3.
Proof.
  intros [Hr1 [e1 Hd1]] [Hr2 [e2 Hd2]]. split; [congruence|].
  exists (e1 ++ e2). by rewrite Hd2, Hd1, app_assoc.
Qed.

Lemma JsVal_eqb_refl (d : JsVal) : JsVal_eqb d d = true.
Proof.
  destruct d as [| |b|q|t]; cbn; try done.
  - by apply bool_decide_eq_true.
  - apply Qeq_bool_iff. reflexivity.
  - by apply bool_decide_eq_true.
Qed.

Lemma index_of_snoc (d : JsVal) (l : list JsVal) :
  index_of d l = None -> index_of d (l ++ [d]) = Some (length l).
Proof.
  intros Hn. rewrite index_of_app, Hn. cbn. rewrite JsVal_eqb_refl. cbn.
  by rewrite Nat.add_0_r.
Qed.

(** What a lookup leaves behind: the key is in the domain, at the
    position that gave the colour. *)
Lemma Ordinal_call_known (s : Ordinal) (d : JsVal) :
  extends s (snd (Ordinal_call s d)) /\
  exists i : nat,
    index_of d (o_domain (snd (Ordinal_call s d))) = Some i /\
    fst (Ordinal_call s d) = o_range s !! (i mod length (o_range s))%nat.
Proof.
  unfold Ordinal_call. destruct (index_of d (o_domain s)) as [i|] eqn:Hi; cbn.
  - split; [apply extends_refl|]. by exists i.
  - split; [split; [done|]; by exists [d]|].
    exists (length (o_domain s)). by rewrite index_of_snoc.
Qed.

Lemma Ordinal_call_again (s s' : Ordinal) (d : JsVal) (i : nat) :
  index_of d (o_domain s) = Some i -> extends s s' ->
  Ordinal_call s' d = (o_range s !! (i mod length (o_range s))%nat, s').
Proof.
  intros Hi [Hr [extra Hd]]. unfold Ordinal_call.
  by rewrite Hd, index_of_app, Hi, Hr.
Qed.

Lemma Ordinal_map_extends (s : Ordinal) (keys : list JsVal) :
  extends s (snd (Ordinal_map s keys)).
Proof.
  revert s. induction keys as [|d keys IH]; intros s; cbn.
  - apply extends_refl.
  - destruct (Ordinal_call_known s d) as [He _].
    destruct (Ordinal_call s d) as [c s1]. specialize (IH s1).
    destruct (Ordinal_map s1 keys) as [cs s2]. cbn in *.
    by apply (extends_trans _ s1).
Qed.

(** Looking the same keys up again, on the scale the first round left or
    on any later one, gives the same colours and leaves the scale as it
    is. *)
Lemma Ordinal_map_again (s s' : Ordinal) (keys : list JsVal) :
  extends (snd (Ordinal_map s keys)) s' ->
  Ordinal_map s' keys = (fst (Ordinal_map s keys), s').
Proof.
  revert s. induction keys as [|d keys IH]; intros s He; cbn in *; [done|].
  destruct (Ordinal_call_known s d) as [He1 (i & Hi & Hc)].
  destruct (Ordinal_call s d) as [c s1] eqn:Hcall. cbn in *.
  pose proof (Ordinal_map_extends s1 keys) as He2.
  specialize (IH s1).
  destruct (Ordinal_map s1 keys) as [cs s2] eqn:Hmap. cbn in *.
  assert (He3 : extends s1 s') by by apply (extends_trans _ s2).
  rewrite (Ordinal_call_again s1 s' d i Hi He3).
  rewrite (IH He). destruct He1 as [Hr _]. by rewrite Hc, Hr.
Qed.

Lemma Ordinal_map_calls (s : Ordinal) (keys : list JsVal) :
  snd (Ordinal_map s keys) = Ordinal_calls s keys.
Proof.
  revert s. induction keys as [|d keys IH]; intros s; cbn; [done|].
  change (Ordinal_calls s (d :: keys))
    with (Ordinal_calls (snd (Ordinal_call s d)) keys).
  destruct (Ordinal_call s d) as [c s1]. specialize (IH s1).
  by destruct (Ordinal_map s1 keys) as [cs s2].
Qed.

Lemma Ordinal_map_lookup (s : Ordinal) (keys : list JsVal) (i : nat) (d : JsVal) :
  keys !! i = Some d ->
  fst (Ordinal_map s keys) !! i
  = Some (fst (Ordinal_call (Ordinal_calls s (take i keys)) d)).
Proof.
  revert s i. induction keys as [|d0 keys IH]; intros s i Hi; [done|].
  cbn [Ordinal_map].
  destruct (Ordinal_call s d0) as [c s1] eqn:Hcall.
  specialize (IH s1).
  destruct (Ordinal_map s1 keys) as [cs s2] eqn:Hmap.
  destruct i as [|i]; cbn in *.
  - injection Hi as <-. by rewrite Hcall.
  - rewrite Hcall. cbn. by apply IH.
Qed.

Lemma createNodes_themes (k : nat) (rawData : list JsObject) :
  map n_theme (createNodes k rawData) = map (fun d => get d "theme") rawData.
Proof.
  revert k. induction rawData as [|d rest IH]; intros k; cbn; [done|].
  by rewrite IH.
Qed.

(** ** The elements and the engine after [chart] *)

Lemma zip_with_enter (l : list Node) (fills : list (option string)) :
  zip_with transition l
    (zip_with (fun d c => enter d (fst c) (snd c)) l (zip fills fills))
  = zip_with (fun d c => transition d (enter d c c)) l fills.
Proof.
  revert fills. induction l as [|d l IH]; intros [|c fills]; cbn; [done..|].
  by rewrite IH.
Qed.

(** [chart] with its two rounds of colour lookups put together. *)
Lemma chart_eq (selector : string) (rawData : list JsObject) (st : State) :
  let nodes := createNodes (st_random_calls st) rawData in
  let entering := if querySelector selector then nodes else [] in
  chart selector rawData st =
    {| st_svg :=
         if querySelector selector
         then Some {| svg_width := width; svg_height := height |}
         else None;
       st_bubbles :=
         Some (zip_with (fun d c => transition d (enter d c c)) entering
                 (fst (Ordinal_map (st_fillColor st) (map n_theme entering))));
       st_simulation := groupBubbles (Simulation_nodes nodes (st_simulation st));
       st_fillColor := Ordinal_calls (st_fillColor st) (map n_theme entering);
       st_random_calls := (st_random_calls st + 2 * length rawData)%nat |}.
Proof.
  intros nodes entering. unfold chart. fold nodes. fold entering.
  rewrite <- Ordinal_map_calls.
  destruct (Ordinal_map (st_fillColor st) (map n_theme entering))
    as [fills fc1] eqn:Hmap.
  assert (Hagain : Ordinal_map fc1 (map n_theme entering) = (fills, fc1)).
  { rewrite (Ordinal_map_again (st_fillColor st) fc1); rewrite Hmap;
      [done | apply extends_refl]. }
  rewrite Hagain. cbn [fst snd]. by rewrite zip_with_enter.
Qed.

(** Every element that [chart] makes shows its record: the label is the
    [name] of the record, the fill is the colour the scale gives the
    [theme] of the record after the themes of the records before it, the
    stroke is the darker shade of this very fill, and the element is not
    placed yet.  The scale of the closure is left as the lookups of all
    themes, in order, leave it. *)
Theorem chart_elements_show_records
    (selector : string) (rawData : list JsObject) (st : State)
    (Hsel : querySelector selector = true)
    (i : nat) (d : JsObject) (Hi : rawData !! i = Some d) :
  let themes := map (fun e => get e "theme") rawData in
  (exists b : Bubble,
      default [] (st_bubbles (chart selector rawData st)) !! i = Some b /\
      t_text (b_text b) = get d "name" /\
      c_fill (b_circle b)
      = fst (Ordinal_call (Ordinal_calls (st_fillColor st) (take i themes))
               (get d "theme")) /\
      c_stroke (b_circle b) = darker (c_fill (b_circle b)) /\
      b_transform b = None) /\
  st_fillColor (chart selector rawData st)
  = Ordinal_calls (st_fillColor st) themes.
Proof.
  intros themes. rewrite chart_eq. rewrite Hsel.
  cbn [st_bubbles st_fillColor from_option id].
  rewrite createNodes_themes. fold themes. split; [|done].
  assert (Ht : themes !! i = Some (get d "theme")).
  { unfold themes. by rewrite list_lookup_fmap, Hi. }
  eexists. split.
  - rewrite lookup_zip_with.
    rewrite (createNodes_lookup _ _ _ _ Hi).
    rewrite (Ordinal_map_lookup _ _ _ _ Ht). cbn. reflexivity.
  - done.
Qed.

Lemma createNodes_at_rest (k : nat) (rawData : list JsObject) :
  map (fun d =>
         {| n_id := n_id d;
            n_radius := n_radius d;
            n_name := n_name d;
            n_theme := n_theme d;
            n_tag := n_tag d;
            n_x := n_x d;
            n_y := n_y d;
            n_vx := Some (default 0 (n_vx d));
            n_vy := Some (default 0 (n_vy d)) |})
      (createNodes k rawData)
  = map at_rest (createNodes k rawData).
Proof.
  revert k. induction rawData as [|d rest IH]; intros k; cbn; [done|].
  by rewrite IH.
Qed.

(** What [chart] hands to the engine: the nodes it made, at their random
    positions and at rest, with alpha 1 and stepping scheduled, whatever
    the engine was doing; two random numbers are used up per record.  This
    is so even when the selector matches nothing: then there is no svg
    element and no element for any node, and the scale is not touched. *)
Theorem chart_starts_engine
    (selector : string) (rawData : list JsObject) (st : State) :
  let st' := chart selector rawData st in
  sim_nodes (st_simulation st')
  = map at_rest (createNodes (st_random_calls st) rawData) /\
  sim_alpha (st_simulation st') = 1 /\
  sim_running (st_simulation st') = true /\
  st_random_calls st' = (st_random_calls st + 2 * length rawData)%nat /\
  (querySelector selector = false ->
   st_svg st' = None /\ st_bubbles st' = Some [] /\
   st_fillColor st' = st_fillColor st).
Proof.
  cbn zeta. rewrite chart_eq.
  cbn [st_simulation st_random_calls st_svg st_bubbles st_fillColor].
  split; [apply createNodes_at_rest|].
  split; [done|]. split; [done|]. split; [done|].
  intros Hsel. by rewrite Hsel.
Qed.

(** ** What holds in every state of the chart *)

Lemma Simulation_step_keeps (s : Simulation) :
  sim_forces (Simulation_step s) = sim_forces s /\
  sim_velocityDecay (Simulation_step s) = sim_velocityDecay s /\
  sim_on_tick (Simulation_step s) = sim_on_tick s /\
  sim_nodes (Simulation_step s)
  = (if sim_running s then map (move s) (sim_nodes s) else sim_nodes s) /\
  (sim_running (Simulation_step s) = true -> sim_running s = true).
Proof.
  unfold Simulation_step. destruct (sim_running s) eqn:Hrun.
  - cbn. by destruct (Qlt_le_dec (sim_alpha s * coolingRate) alphaMin).
  - by rewrite Hrun.
Qed.

Lemma frame_idle (st : State) :
  sim_running (st_simulation st) = false -> frame st = st.
Proof.
  intros Hrun. unfold frame. rewrite Hrun, (Simulation_step_idle _ Hrun).
  by destruct st.
Qed.


Lemma frames_simulation (n : nat) (st : State) :
  st_simulation (frames n st) = steps n (st_simulation st).
Proof. induction n as [|n IH]; [done|]. cbn. by rewrite IH. Qed.

Lemma chart_inv_built : chart_inv bubbleChart.
Proof.
  unfold chart_inv; cbn.
  split; [done|]. split; [done|]. split; [done|]. split; [done|].
  split; [constructor|]. split; [done|]. by exists [].
Qed.

Lemma chart_inv_chart (selector : string) (rawData : list JsObject) (st : State) :
  chart_inv st -> chart_inv (chart selector rawData st).
Proof.
  intros (Hf & Hv & Ht & _ & _ & _ & [keys Hk]).
  rewrite chart_eq. unfold chart_inv.
  cbn [st_simulation st_bubbles st_fillColor].
  set (nodes := createNodes (st_random_calls st) rawData).
  set (entering := if querySelector selector then nodes else []).
  split; [|split; [|split; [|split; [|split; [|split]]]]].
  - cbn. rewrite Hf. apply insert_id. apply simulation_forces.
  - exact Hv.
  - exact Ht.
  - intros _. by eexists.
  - cbn. apply Forall_forall. intros d Hd.
    apply list_elem_of_fmap in Hd as (d0 & -> & Hd0). cbn.
    pose proof (createNodes_radius (st_random_calls st) rawData) as Hr.
    rewrite Forall_forall in Hr. rewrite (Hr d0 Hd0).
    split; [done|]. split; by eexists.
  - intros bs [= <-]. split.
    + rewrite length_zip_with, Ordinal_map_length, length_map.
      cbn. rewrite length_map. subst entering.
      destruct (querySelector selector); [right; lia | by left].
    + intros i b d Hb _. left.
      apply lookup_zip_with_Some in Hb as (d0 & c & -> & _ & _). done.
  - exists (keys ++ map n_theme entering).
    rewrite Hk. unfold Ordinal_calls. by rewrite foldl_app.
Qed.

Lemma chart_inv_frame (st : State) : chart_inv st -> chart_inv (frame st).
Proof.
  intros Hinv.
  destruct (sim_running (st_simulation st)) eqn:Hrun;
    [|by rewrite frame_idle].
  destruct Hinv as (Hf & Hv & Ht & Hb & Hn & Hbs & Hk).
  cbn zeta in *. rewrite Hrun in *.
  destruct (Simulation_step_keeps (st_simulation st))
    as (Kf & Kv & Kt & Kn & Kr).
  rewrite Hrun in Kn.
  unfold chart_inv, frame. cbn [st_simulation st_bubbles st_fillColor].
  rewrite Hrun, Ht. cbn [andb].
  split; [|split; [|split; [|split; [|split; [|split]]]]].
  - by rewrite Kf.
  - by rewrite Kv.
  - by rewrite Kt.
  - intros _. destruct (Hb eq_refl) as [bs ->]. by eexists.
  - rewrite Kn. apply Forall_forall. intros d Hd.
    apply list_elem_of_fmap in Hd as (d0 & -> & Hd0). cbn.
    rewrite Forall_forall in Hn. destruct (Hn d0 Hd0) as [-> _].
    split; [done|]. split; by eexists.
  - intros bs' Hbs'.
    destruct (st_bubbles st) as [bs|] eqn:Hsome; [|done].
    injection Hbs' as <-. destruct (Hbs bs eq_refl) as [Hlen _].
    split.
    + unfold ticked. rewrite length_zip_with, Kn, length_map.
      destruct Hlen as [->|Hlen]; [left|right; lia].
      by destruct (map _ _).
    + intros i b d Hi Hd. right.
      unfold ticked in Hi.
      apply lookup_zip_with_Some in Hi as (d0 & b0 & -> & Hd0 & _).
      rewrite Hd0 in Hd. by injection Hd as ->.
  - exact Hk.
Qed.

Lemma reachable_chart_inv (st : State) : reachable st -> chart_inv st.
Proof.
  induction 1 as [|selector rawData st _ IH|st _ IH].
  - apply chart_inv_built.
  - by apply chart_inv_chart.
  - by apply chart_inv_frame.
Qed.

(** In every state of the chart the engine is configured as it was built:
    the forces are the three registered at construction, with their
    parameters, the damping is 0.2 and [ticked] is registered.  Every node
    the engine holds has the radius 22, so the charge -242.  Hence
    [groupBubbles] never changes a force: all it ever does is set alpha to
    1 and schedule the stepping. *)
Theorem reachable_engine_as_built (st : State) (Hst : reachable st) :
  let s := st_simulation st in
  sim_forces s =
    <["charge" := forceManyBody charge]>
      (<["y" := forceY forceStrength (p_y center)]>
         (<["x" := forceX forceStrength (p_x center)]> ∅)) /\
  sim_velocityDecay s = 0.2 /\
  sim_on_tick s = true /\
  Forall (fun d => n_radius d = 22 /\ charge d == -242) (sim_nodes s) /\
  groupBubbles s = Simulation_restart (Simulation_alpha 1 s).
Proof.
  destruct (reachable_chart_inv st Hst) as (Hf & Hv & Ht & _ & Hn & _).
  cbn zeta in *.
  split; [by rewrite Hf|]. split; [done|]. split; [done|]. split.
  - eapply Forall_impl; [exact Hn|]. intros d [Hr _]. split; [done|].
    unfold charge, charge_closure. by rewrite Hr.
  - unfold groupBubbles, Simulation_restart, Simulation_alpha, Simulation_force.
    cbn [sim_alpha sim_velocityDecay sim_forces sim_nodes sim_on_tick
         sim_running].
    rewrite (insert_id (sim_forces (st_simulation st)) "x"); [done|].
    rewrite Hf. apply simulation_forces.
Qed.

(** In every state of the chart [ticked] is safe and the picture is true:
    stepping is scheduled only when the selection [bubbles] has been made
    (it is null before); the selection is empty or has one element per
    node of the engine; and every element is either not placed yet or sits
    exactly where its node is. *)
Theorem reachable_presenter_in_step (st : State) (Hst : reachable st) :
  let s := st_simulation st in
  (sim_running s = true -> is_Some (st_bubbles st)) /\
  forall bs : list Bubble,
    st_bubbles st = Some bs ->
    (bs = [] \/ length bs = length (sim_nodes s)) /\
    forall (i : nat) (b : Bubble) (d : Node),
      bs !! i = Some b -> sim_nodes s !! i = Some d -> shows d b.
Proof.
  destruct (reachable_chart_inv st Hst) as (_ & _ & _ & Hb & _ & Hbs & _).
  by split.
Qed.

Lemma fillColor_after_calls (keys : list JsVal) (j : nat) (k : JsVal) (c : string) :
  o_domain fillColor !! j = Some k -> o_range fillColor !! j = Some c ->
  fst (Ordinal_call (Ordinal_calls fillColor keys) k) = Some c.
Proof.
  intros Hk Hc.
  destruct (Ordinal_calls_grows fillColor keys) as [Hr [extra He]].
  unfold Ordinal_call. rewrite Hr, He, index_of_app.
  change (o_domain fillColor) with
    [JString "groei"; JString "onderneming"; JString "voeding";
     JString "financieel"] in *.
  change (o_range fillColor) with
    ["#ffca3a"; "#3ddc97"; "#8ac926"; "#ff4f78"] in *.
  destruct j as [|[|[|[|j]]]]; cbn in Hk, Hc; try done;
    injection Hk as <-; injection Hc as <-; reflexivity.
Qed.

(** The colours of the four categories survive everything: in every state
    of the chart, a new call of [chart] gives the element of a record
    whose theme is the category number [j] of the domain the colour number
    [j] of the range as its fill, and the darker shade of it as its stroke,
    whatever themes were looked up before. *)
Theorem reachable_chart_keeps_colours
    (st : State) (Hst : reachable st)
    (selector : string) (Hsel : querySelector selector = true)
    (rawData : list JsObject) (i : nat) (d : JsObject)
    (Hi : rawData !! i = Some d)
    (j : nat) (c : string)
    (Hk : o_domain fillColor !! j = Some (get d "theme"))
    (Hc : o_range fillColor !! j = Some c) :
  exists b : Bubble,
    default [] (st_bubbles (chart selector rawData st)) !! i = Some b /\
    c_fill (b_circle b) = Some c /\
    c_stroke (b_circle b) = darker (Some c).
Proof.
  destruct (reachable_chart_inv st Hst) as (_ & _ & _ & _ & _ & _ & [keys Hkeys]).
  rewrite chart_eq, Hsel. cbn [st_bubbles from_option id].
  rewrite createNodes_themes.
  assert (Ht : map (fun e => get e "theme") rawData !! i = Some (get d "theme"))
    by by rewrite list_lookup_fmap, Hi.
  eexists. split.
  - rewrite lookup_zip_with, (createNodes_lookup _ _ _ _ Hi),
      (Ordinal_map_lookup _ _ _ _ Ht). cbn. reflexivity.
  - cbn. rewrite Hkeys.
    assert (Hcol : fst (Ordinal_call
                          (Ordinal_calls (Ordinal_calls fillColor keys)
                             (take i (map (fun e => get e "theme") rawData)))
                          (get d "theme")) = Some c).
    { rewrite <- (fillColor_after_calls
                    (keys ++ take i (map (fun e => get e "theme") rawData))
                    j _ c Hk Hc).
      unfold Ordinal_calls. by rewrite foldl_app. }
    by rewrite Hcol.
Qed.

(** ** Stopped and settling *)


(** With a cooling rate strictly between 0 and 1 and a positive
    threshold, the animation that [chart] starts comes to an end: for some
    [N] the first [N] scheduling ticks all find the stepping scheduled, the
    tick number [N] takes alpha below the threshold and stops it, and from
    then on the whole state of the chart, the elements included, stays as
    it is. *)
Theorem chart_animation_settles
    (Hrate : 0 < coolingRate < 1) (Hmin : 0 < alphaMin)
    (selector : string) (rawData : list JsObject) (st : State) :
  let st0 := chart selector rawData st in
  exists N : nat,
    (1 <= N)%nat /\
    (forall n : nat, (n < N)%nat ->
        sim_running (st_simulation (frames n st0)) = true) /\
    sim_running (st_simulation (frames N st0)) = false /\
    sim_alpha (st_simulation (frames N st0)) < alphaMin /\
    forall m : nat, (N <= m)%nat -> frames m st0 = frames N st0.
Proof.
  intros st0.
  assert (Ha : sim_alpha (st_simulation st0) = 1)
    by (unfold st0; by rewrite chart_eq).
  assert (Hr : sim_running (st_simulation st0) = true)
    by (unfold st0; by rewrite chart_eq).
  destruct (pow_nat_small coolingRate
              (sim_alpha (st_simulation st0) * coolingRate) alphaMin)
    as [fuel Hfuel]; [done | rewrite Ha; lra | done |].
  destruct (settles_after_fuel Hrate fuel (st_simulation st0))
    as [N (H1 & Hdec & _ & Hend & Hstop)].
  - done.
  - rewrite Ha. lra.
  - cbn [pow_nat]. lra.
  - exists N. split; [done|]. split; [|split; [|split]].
    + intros n Hn. rewrite frames_simulation. by apply Hdec.
    + by rewrite frames_simulation.
    + by rewrite frames_simulation.
    + intros m Hm. replace m with ((m - N) + N)%nat by lia.
      generalize (m - N)%nat as k. intros k.
      induction k as [|k IHk]; [done|].
      cbn [Nat.add frames]. rewrite IHk. apply frame_idle.
      by rewrite frames_simulation.
Qed.

(** ** The data load, every outcome *)


(** ** The size of the labels *)


End Host.

(** * The properties at concrete inputs *)

Lemma sample_random_range (k : nat) : 0 <= sample_random k < 1.
Proof.
  unfold sample_random, Qle, Qlt; cbn. lia.
Qed.

Example createNodes_sample :
  createNodes sample_random 0 [sample_record] =
    [ {| n_id := JNumber 1; n_radius := 22; n_name := JString "a";
         n_theme := JString "groei"; n_tag := JString "t";
         n_x := (1 # 2) * 940; n_y := (1 # 3) * 600;
         n_vx := None; n_vy := None |} ].
Proof. reflexivity. Qed.

Example chart_sample_circle :
  map (fun b => (c_r (b_circle b), c_fill (b_circle b), b_circle_r b))
      (default []
         (st_bubbles
            (chart sample_random sample_textLength sample_querySelector 0.001
                   "body" [sample_record] bubbleChart)))
  = [(10, Some "#ffca3a", Some {| tr_target := 22; tr_duration := 2000 |})].
Proof. reflexivity. Qed.

Lemma createNodes_one_node_per_record_witness :
  (forall k : nat, 0 <= sample_random k < 1) /\
  length (createNodes sample_random 0 [sample_record]) = 1%nat /\
  forall (i : nat) (d : JsObject),
    [sample_record] !! i = Some d ->
    exists n : Node,
      createNodes sample_random 0 [sample_record] !! i = Some n /\
      n_id n = get d "id" /\ n_name n = get d "name" /\
      n_theme n = get d "theme" /\ n_tag n = get d "tag" /\
      n_x n = sample_random (0 + 2 * i) * width /\
      n_y n = sample_random (S (0 + 2 * i)) * height /\
      0 <= n_x n < width /\ 0 <= n_y n < height.
Proof.
  split; [exact sample_random_range|].
  exact (createNodes_one_node_per_record
           sample_random sample_random_range 0 [sample_record]).
Defined.

Lemma restart_cools_until_settled_witness :
  0 < (1 # 2) < 1 /\ 0 < 0.001 /\
  let s0 := Simulation_restart (Simulation_alpha 1 simulation) in
  sim_alpha s0 = 1 /\ sim_running s0 = true /\
  exists N : nat,
    (1 <= N)%nat /\
    (forall n : nat, (n < N)%nat ->
        sim_running (steps (1 # 2) 0.001 sample_repulsion n s0) = true /\
        sim_alpha (steps (1 # 2) 0.001 sample_repulsion (S n) s0)
        < sim_alpha (steps (1 # 2) 0.001 sample_repulsion n s0)) /\
    (forall n : nat, (1 <= n < N)%nat ->
        0.001 <= sim_alpha (steps (1 # 2) 0.001 sample_repulsion n s0)) /\
    sim_alpha (steps (1 # 2) 0.001 sample_repulsion N s0) < 0.001 /\
    sim_running (steps (1 # 2) 0.001 sample_repulsion N s0) = false /\
    (forall m : nat, (N <= m)%nat ->
        steps (1 # 2) 0.001 sample_repulsion m s0
        = steps (1 # 2) 0.001 sample_repulsion N s0 /\
        sim_running
          (Simulation_restart (steps (1 # 2) 0.001 sample_repulsion m s0))
        = true).
Proof.
  assert (Hrate : 0 < (1 # 2) < 1) by (split; reflexivity).
  assert (Hmin : 0 < 0.001) by reflexivity.
  split; [exact Hrate|]. split; [exact Hmin|].
  exact (restart_cools_until_settled
           (1 # 2) 0.001 sample_repulsion Hrate Hmin simulation).
Defined.

Example steps_sample :
  let s0 := Simulation_restart (Simulation_alpha 1 simulation) in
  map (fun n => sim_running (steps (1 # 2) 0.001 sample_repulsion n s0))
      [0; 1; 9; 10; 11]%nat
  = [true; true; true; false; false] /\
  Qred (sim_alpha (steps (1 # 2) 0.001 sample_repulsion 9 s0)) = 1 # 512 /\
  Qred (sim_alpha (steps (1 # 2) 0.001 sample_repulsion 10 s0)) = 1 # 1024 /\
  Qred (sim_alpha (steps (1 # 2) 0.001 sample_repulsion 11 s0)) = 1 # 1024.
Proof. vm_compute. repeat split. Qed.

(** C6 as stated fails: the x-force of the engine does not have the
    target 313.  Its target is 313 and a third, and a node that sits at
    [x = 313] is still pulled, by 1/6 per unit of alpha. *)
Lemma x_force_target_is_not_313 :
  ~ (exists strength x : Q,
        sim_forces simulation !! "x" = Some (forceX strength x) /\ x == 313) /\
  exists f : Force,
    sim_forces simulation !! "x" = Some f /\
    let d := {| n_id := JUndefined; n_radius := 22; n_name := JUndefined;
                n_theme := JUndefined; n_tag := JUndefined;
                n_x := 313; n_y := 300; n_vx := Some 0; n_vy := Some 0 |} in
    fst (force_delta sample_repulsion f 1 [d] d) == 1 # 6.
Proof.
  split.
  - intros (strength & x & Hf & Hx).
    assert (Hs : sim_forces simulation !! "x"
                 = Some (forceX forceStrength (p_x center))) by reflexivity.
    rewrite Hs in Hf. injection Hf as _ <-. revert Hx. vm_compute. discriminate.
  - eexists. split; [reflexivity|]. reflexivity.
Qed.

Lemma centering_forces_target_center_witness :
  0 < 1 /\
  let d := {| n_id := JUndefined; n_radius := 22; n_name := JUndefined;
              n_theme := JUndefined; n_tag := JUndefined;
              n_x := 313; n_y := 300; n_vx := Some 0; n_vy := Some 0 |} in
  sim_forces simulation !! "x" = Some (forceX forceStrength (p_x center)) /\
  sim_forces simulation !! "y" = Some (forceY forceStrength (p_y center)) /\
  p_x center == 940 / 3 /\ p_y center == 300 /\
  let dx :=
    fst (force_delta sample_repulsion (forceX forceStrength (p_x center)) 1 [d] d) in
  let dy :=
    snd (force_delta sample_repulsion (forceY forceStrength (p_y center)) 1 [d] d) in
  (0 < dx <-> n_x d < 940 / 3) /\ (dx < 0 <-> 940 / 3 < n_x d) /\
  (dx == 0 <-> n_x d == 940 / 3) /\
  (0 < dy <-> n_y d < 300) /\ (dy < 0 <-> 300 < n_y d) /\
  (dy == 0 <-> n_y d == 300).
Proof.
  assert (H1 : 0 < 1) by reflexivity.
  split; [exact H1|].
  intros d.
  exact (centering_forces_target_center sample_repulsion 1 H1 [d] d).
Defined.

Lemma groupBubbles_only_restarts_witness :
  let s :=
    Simulation_nodes 0.001 (createNodes sample_random 0 [sample_record])
      simulation in
  sim_forces s !! "x" = sim_forces simulation !! "x" /\
  sim_forces simulation !! "x" = Some (forceX forceStrength (p_x center)) /\
  sim_forces (groupBubbles s) = sim_forces s /\
  groupBubbles s = Simulation_restart (Simulation_alpha 1 s) /\
  groupBubbles s =
    {| sim_alpha := 1;
       sim_velocityDecay := sim_velocityDecay s;
       sim_forces := sim_forces s;
       sim_nodes := sim_nodes s;
       sim_on_tick := sim_on_tick s;
       sim_running := true |}.
Proof.
  intros s.
  assert (Hx : sim_forces s !! "x" = sim_forces simulation !! "x")
    by reflexivity.
  split; [exact Hx|].
  exact (groupBubbles_only_restarts s Hx).
Defined.

(** * The further properties at concrete inputs *)

Lemma createNodes_reads_four_fields_witness :
  let bare := delete "radius" sample_record in
  Forall2 same_fields [sample_record] [bare] /\
  createNodes sample_random 0 [sample_record]
  = createNodes sample_random 0 [bare].
Proof.
  intros bare.
  assert (Hsame : Forall2 same_fields [sample_record] [bare])
    by (repeat constructor).
  split; [exact Hsame|].
  exact (createNodes_reads_four_fields sample_random 0 _ _ Hsame).
Defined.

Lemma chart_elements_show_records_witness :
  let ch := chart sample_random sample_textLength sample_querySelector 0.001 in
  let themes := map (fun e => get e "theme") [sample_record] in
  sample_querySelector "body" = true /\
  [sample_record] !! 0%nat = Some sample_record /\
  (exists b : Bubble,
      default [] (st_bubbles (ch "body" [sample_record] bubbleChart)) !! 0%nat
      = Some b /\
      t_text (b_text b) = get sample_record "name" /\
      c_fill (b_circle b)
      = fst (Ordinal_call
               (Ordinal_calls (st_fillColor bubbleChart) (take 0 themes))
               (get sample_record "theme")) /\
      c_stroke (b_circle b) = darker (c_fill (b_circle b)) /\
      b_transform b = None) /\
  st_fillColor (ch "body" [sample_record] bubbleChart)
  = Ordinal_calls (st_fillColor bubbleChart) themes.
Proof.
  intros ch themes.
  assert (Hsel : sample_querySelector "body" = true) by reflexivity.
  assert (Hi : [sample_record] !! 0%nat = Some sample_record) by reflexivity.
  split; [exact Hsel|]. split; [exact Hi|].
  exact (chart_elements_show_records
           sample_random sample_textLength sample_querySelector 0.001
           "body" [sample_record] bubbleChart Hsel 0%nat sample_record Hi).
Defined.

Lemma reachable_engine_as_built_witness :
  let reach :=
    reachable sample_random sample_textLength sample_querySelector
      (1 # 2) 0.001 sample_repulsion in
  let st :=
    frame (1 # 2) 0.001 sample_repulsion
      (chart sample_random sample_textLength sample_querySelector 0.001
         "body" [sample_record] bubbleChart) in
  let s := st_simulation st in
  reach st /\
  sim_forces s =
    <["charge" := forceManyBody charge]>
      (<["y" := forceY forceStrength (p_y center)]>
         (<["x" := forceX forceStrength (p_x center)]> ∅)) /\
  sim_velocityDecay s = 0.2 /\
  sim_on_tick s = true /\
  Forall (fun d => n_radius d = 22 /\ charge d == -242) (sim_nodes s) /\
  groupBubbles s = Simulation_restart (Simulation_alpha 1 s).
Proof.
  intros reach st s.
  assert (Hst : reach st)
    by (apply reachable_frame, reachable_chart, reachable_built).
  split; [exact Hst|].
  exact (reachable_engine_as_built
           sample_random sample_textLength sample_querySelector
           (1 # 2) 0.001 sample_repulsion st Hst).
Defined.

Lemma reachable_presenter_in_step_witness :
  let reach :=
    reachable sample_random sample_textLength sample_querySelector
      (1 # 2) 0.001 sample_repulsion in
  let st :=
    frame (1 # 2) 0.001 sample_repulsion
      (chart sample_random sample_textLength sample_querySelector 0.001
         "body" [sample_record] bubbleChart) in
  let s := st_simulation st in
  reach st /\
  (sim_running s = true -> is_Some (st_bubbles st)) /\
  forall bs : list Bubble,
    st_bubbles st = Some bs ->
    (bs = [] \/ length bs = length (sim_nodes s)) /\
    forall (i : nat) (b : Bubble) (d : Node),
      bs !! i = Some b -> sim_nodes s !! i = Some d -> shows d b.
Proof.
  intros reach st s.
  assert (Hst : reach st)
    by (apply reachable_frame, reachable_chart, reachable_built).
  split; [exact Hst|].
  exact (reachable_presenter_in_step
           sample_random sample_textLength sample_querySelector
           (1 # 2) 0.001 sample_repulsion st Hst).
Defined.

Lemma reachable_chart_keeps_colours_witness :
  let reach :=
    reachable sample_random sample_textLength sample_querySelector
      (1 # 2) 0.001 sample_repulsion in
  let ch := chart sample_random sample_textLength sample_querySelector 0.001 in
  let other := <["theme" := JString "sport"]> sample_record in
  let st := ch "body" [other] bubbleChart in
  reach st /\
  sample_querySelector "body" = true /\
  [other; sample_record] !! 1%nat = Some sample_record /\
  o_domain fillColor !! 0%nat = Some (get sample_record "theme") /\
  o_range fillColor !! 0%nat = Some "#ffca3a" /\
  exists b : Bubble,
    default [] (st_bubbles (ch "body" [other; sample_record] st)) !! 1%nat
    = Some b /\
    c_fill (b_circle b) = Some "#ffca3a" /\
    c_stroke (b_circle b) = darker (Some "#ffca3a").
Proof.
  intros reach ch other st.
  assert (Hst : reach st) by (apply reachable_chart, reachable_built).
  assert (Hsel : sample_querySelector "body" = true) by reflexivity.
  assert (Hi : [other; sample_record] !! 1%nat = Some sample_record)
    by reflexivity.
  assert (Hk : o_domain fillColor !! 0%nat = Some (get sample_record "theme"))
    by reflexivity.
  assert (Hc : o_range fillColor !! 0%nat = Some "#ffca3a") by reflexivity.
  split; [exact Hst|]. split; [exact Hsel|]. split; [exact Hi|].
  split; [exact Hk|]. split; [exact Hc|].
  exact (reachable_chart_keeps_colours
           sample_random sample_textLength sample_querySelector
           (1 # 2) 0.001 sample_repulsion st Hst "body" Hsel
           [other; sample_record] 1%nat sample_record Hi 0%nat "#ffca3a" Hk Hc).
Defined.


Lemma chart_animation_settles_witness :
  let fr := frames (1 # 2) 0.001 sample_repulsion in
  let st0 :=
    chart sample_random sample_textLength sample_querySelector 0.001
      "body" [sample_record] bubbleChart in
  0 < (1 # 2) < 1 /\ 0 < 0.001 /\
  exists N : nat,
    (1 <= N)%nat /\
    (forall n : nat, (n < N)%nat ->
        sim_running (st_simulation (fr n st0)) = true) /\
    sim_running (st_simulation (fr N st0)) = false /\
    sim_alpha (st_simulation (fr N st0)) < 0.001 /\
    forall m : nat, (N <= m)%nat -> fr m st0 = fr N st0.
Proof.
  intros fr st0.
  assert (Hrate : 0 < (1 # 2) < 1) by (split; reflexivity).
  assert (Hmin : 0 < 0.001) by reflexivity.
  split; [exact Hrate|]. split; [exact Hmin|].
  exact (chart_animation_settles
           sample_random sample_textLength sample_querySelector
           (1 # 2) 0.001 sample_repulsion Hrate Hmin
           "body" [sample_record] bubbleChart).
Defined.


Example chart_sample_label :
  map (fun b => (t_text (b_text b), Qred <$> t_font_size (b_text b),
                 c_stroke (b_circle b)))
      (default []
         (st_bubbles
            (chart sample_random sample_textLength sample_querySelector 0.001
                   "body" [sample_record] bubbleChart)))
  = [(JString "a", Some (108 # 5), darker (Some "#ffca3a"))].
Proof. reflexivity. Qed.

Example frame_sample_transform :
  let st :=
    frame (1 # 2) 0.001 sample_repulsion
      (chart sample_random sample_textLength sample_querySelector 0.001
         "body" [sample_record] bubbleChart) in
  map (fun d => translate (n_x d) (n_y d)) (sim_nodes (st_simulation st))
  = omap b_transform (default [] (st_bubbles st)).
Proof. reflexivity. Qed.
